(** * Footpath Explorer: the search / render / select flow of src/App.js

    A shallow embedding of the [App] component: the four pieces of React
    state, the asynchronous [searchSegments] (split at its single [await]),
    [clearSegments], [closeErrorMessage], the click handler installed by
    [onEachFeature], the popup of the render function and the gates of the
    two buttons of [ButtonOverlay].

    Numbers.  Element identifiers are JSON numbers; OpenStreetMap identifiers
    are integers, so they are modelled in [Z].  Coordinates are IEEE doubles in
    the browser; they are modelled in [Q].  The only arithmetic the program
    does on them is one comparison with -180 and one addition of 360. *)

From Stdlib Require Import ZArith QArith Lqa List String Ascii Bool Lia.
Import ListNotations.

Local Open Scope string_scope.
Local Open Scope Z_scope.

(** ** Data model *)

(** A tag mapping, in the key order of the JSON object that carries it. *)
Definition Tags := list (string * string).

(** One entry of [el.geometry]: an object with fields [lon] and [lat]. *)
Record Point := mkPoint { lon : Q; lat : Q }.

(** One entry of [response.data.elements].  [geometry] may be missing from an
    element, in which case [el.geometry.map] throws. *)
Record RawElement := mkRawElement {
  el_id : Z;
  el_geometry : option (list Point);
  el_tags : Tags
}.

(** The [geometry] object of a feature; a coordinate [[lon, lat]] is a pair. *)
Record Geometry := mkGeometry {
  gtype : string;
  coordinates : list (Q * Q)
}.

(** An entry of [geojson.features]. *)
Record Feature := mkFeature {
  ftype : string;
  geometry : Geometry;
  properties : Tags;
  id : Z
}.

(** The four [useState] cells of [App]. *)
Record ViewState := mkViewState {
  segments : list Feature;
  selectedSegmentId : option Z;
  loading : bool;
  errorMessage : string
}.

(** [useState([])], [useState(null)], [useState(false)], [useState("")]. *)
Definition initialState : ViewState :=
  mkViewState [] None false EmptyString.

(** ** Feature mapping (App.js, lines 62-70) *)

(** [(point) => [point.lon, point.lat]] *)
Definition mapPoint (point : Point) : Q * Q := (lon point, lat point).

(** The arrow function given to [elements.map].  [None] stands for the
    [TypeError] raised by [el.geometry.map] when [el.geometry] is undefined. *)
Definition mapElement (el : RawElement) : option Feature :=
  match el_geometry el with
  | None => None
  | Some pts =>
      Some (mkFeature "Feature"
              (mkGeometry "LineString" (map mapPoint pts))
              (el_tags el)
              (el_id el))
  end.

(** [elements.map(...)]: the first element that throws aborts the whole map. *)
Fixpoint mapElements (els : list RawElement) : option (list Feature) :=
  match els with
  | [] => Some []
  | el :: rest =>
      match mapElement el with
      | None => None
      | Some f =>
          match mapElements rest with
          | None => None
          | Some fs => Some (f :: fs)
          end
      end
  end.

(** ** Outcome of the request *)

(** [response.data]; [elements] may be missing, and then
    [response.data.elements.map] throws. *)
Record ResponseData := mkResponseData {
  elements : option (list RawElement)
}.

(** What [await axios.get(...)] produces: a response, or a rejection whose
    error object may carry a [code]. *)
Inductive Outcome :=
| Resolved (data : ResponseData)
| Rejected (code : option string).

(** The value caught by [catch (error)]: only its [code] is inspected. *)
Definition typeError : option string := None.

(** The [try] block: either the new feature list or the error that reaches
    [catch]. *)
Definition tryBlock (o : Outcome) : list Feature + option string :=
  match o with
  | Rejected code => inr code
  | Resolved data =>
      match elements data with
      | None => inr typeError
      | Some els =>
          match mapElements els with
          | None => inr typeError
          | Some fs => inl fs
          end
      end
  end.

(** [error.code === 'ECONNABORTED'] *)
Definition isTimeout (code : option string) : bool :=
  match code with
  | Some c => String.eqb c "ECONNABORTED"
  | None => false
  end.

Definition timeoutMessage : string :=
  "Query timed out. Try reducing the search area.".
Definition failureMessage : string :=
  "An error occurred while fetching the data.".

(** ** State transitions *)

Definition setSegments (v : list Feature) (s : ViewState) : ViewState :=
  mkViewState v (selectedSegmentId s) (loading s) (errorMessage s).
Definition setSelectedSegmentId (v : option Z) (s : ViewState) : ViewState :=
  mkViewState (segments s) v (loading s) (errorMessage s).
Definition setLoading (v : bool) (s : ViewState) : ViewState :=
  mkViewState (segments s) (selectedSegmentId s) v (errorMessage s).
Definition setErrorMessage (v : string) (s : ViewState) : ViewState :=
  mkViewState (segments s) (selectedSegmentId s) (loading s) v.

(** [searchSegments] up to its [await] (lines 13-14). *)
Definition searchStart (s : ViewState) : ViewState :=
  setErrorMessage EmptyString (setLoading true s).

(** [searchSegments] after its [await]: [try], [catch], [finally]
    (lines 59-82). *)
Definition searchFinish (o : Outcome) (s : ViewState) : ViewState :=
  let s1 :=
    match tryBlock o with
    | inl fs => setSegments fs s
    | inr code =>
        if isTimeout code
        then setErrorMessage timeoutMessage s
        else setErrorMessage failureMessage s
    end in
  setLoading false s1.

(** A whole run of [searchSegments] with nothing happening during the
    [await]. *)
Definition searchSegments (o : Outcome) (s : ViewState) : ViewState :=
  searchFinish o (searchStart s).

(** [clearSegments] (lines 85-89). *)
Definition clearSegments (s : ViewState) : ViewState :=
  setErrorMessage EmptyString (setSelectedSegmentId None (setSegments [] s)).

(** [closeErrorMessage] (lines 91-93). *)
Definition closeErrorMessage (s : ViewState) : ViewState :=
  setErrorMessage EmptyString s.

(** [selectedSegmentId === feature.id]; [null] is never [===] to a number. *)
Definition strictEq (sel : option Z) (fid : Z) : bool :=
  match sel with
  | Some x => x =? fid
  | None => false
  end.

(** The [click] handler of a rendered feature (lines 165-171).  It is
    installed by [layer.on] inside [onEachFeature], which runs once for each
    feature when the GeoJSON layer is created and not again on later
    renders.  The [selectedSegmentId] that the handler compares with is
    therefore the one of the render that created the layer, [captured]
    here, and not the current one. *)
Definition clickFeature (captured : option Z) (fid : Z) (s : ViewState)
  : ViewState :=
  if strictEq captured fid
  then setSelectedSegmentId None s
  else setSelectedSegmentId (Some fid) s.

(** The popup's [onClose] (line 182). *)
Definition closePopup (s : ViewState) : ViewState :=
  setSelectedSegmentId None s.

(** ** Rendering (the JSX returned by [App]) *)

(** The [style] callback of [GeoJSON]: [feature.id === selectedSegmentId]. *)
Definition isSelected (s : ViewState) (feature : Feature) : bool :=
  strictEq (selectedSegmentId s) (id feature).

Definition styleColor (s : ViewState) (feature : Feature) : string :=
  if isSelected s feature then "darkblue" else "blue".
Definition styleWeight (s : ViewState) (feature : Feature) : Z :=
  if isSelected s feature then 6 else 3.

(** [segments.find((segment) => segment.id === selectedSegmentId)] *)
Definition findSegment (sel : Z) (l : list Feature) : option Feature :=
  find (fun segment => id segment =? sel) l.

(** JavaScript truthiness of the selection: [null] and [0] are falsy. *)
Definition truthy (sel : option Z) : bool :=
  match sel with
  | None => false
  | Some x => negb (x =? 0)
  end.

(** The props of the [Popup] element: [position] is [[lat, lon]], and
    [details] is the object handed to [JSON.stringify]. *)
Record PopupProps := mkPopup {
  position : Q * Q;
  details : Tags
}.

(** Result of evaluating a JSX expression. *)
Inductive Render (A : Type) :=
| Throws
| NotRendered
| Rendered (a : A).
Arguments Throws {A}.
Arguments NotRendered {A}.
Arguments Rendered {A} a.

(** [{selectedSegmentId && (<Popup ... />)}] (lines 176-191).  Reading
    [.geometry] of the [undefined] returned by a failed [find], or [[1]] of
    the [undefined] first coordinate of an empty line, throws. *)
Definition popup (s : ViewState) : Render PopupProps :=
  if truthy (selectedSegmentId s) then
    match selectedSegmentId s with
    | None => NotRendered
    | Some sel =>
        match findSegment sel (segments s) with
        | None => Throws
        | Some segment =>
            match coordinates (geometry segment) with
            | [] => Throws
            | c :: _ => Rendered (mkPopup (snd c, fst c) (properties segment))
            end
        end
    end
  else NotRendered.

(** [segments.length > 0 && <GeoJSON ... />]: the features that can be
    clicked. *)
Definition rendersFeature (fid : Z) (s : ViewState) : bool :=
  existsb (fun feature => id feature =? fid) (segments s).

(** [{errorMessage && (...)}]: the banner and its close button. *)
Definition rendersError (s : ViewState) : bool :=
  negb (String.eqb (errorMessage s) EmptyString).

(** [disabled={segments.length > 0 || loading}] of "Search This Area". *)
Definition searchDisabled (s : ViewState) : bool :=
  (0 <? Z.of_nat (List.length (segments s))) || loading s.

(** [disabled={segments.length === 0 || loading}] of "Clear Segments". *)
Definition clearDisabled (s : ViewState) : bool :=
  (Z.of_nat (List.length (segments s)) =? 0) || loading s.

(** ** The application as a transition system *)

(** The React state together with the number of requests awaiting their
    outcome and the GeoJSON layer, when there is one: what is kept of the
    layer is the [selectedSegmentId] that its click handlers were created
    with. *)
Record World := mkWorld {
  view : ViewState;
  inflight : nat;
  layer : option (option Z)
}.

Definition initialWorld : World := mkWorld initialState 0 None.

(** [{segments.length > 0 && (<GeoJSON ... />)}] from one render to the
    next: without features there is no layer; the first render that has
    features creates the layer, and its handlers read the selection of that
    render; a layer that exists is kept as it is. *)
Definition renderLayer (old : option (option Z)) (s : ViewState)
  : option (option Z) :=
  if 0 <? Z.of_nat (List.length (segments s)) then
    match old with
    | Some captured => Some captured
    | None => Some (selectedSegmentId s)
    end
  else None.

(** The world after a handler has left the state [s] and [n] requests
    pending. *)
Definition rendered (s : ViewState) (n : nat) (old : option (option Z))
  : World :=
  mkWorld s n (renderLayer old s).

(** What can happen: the user's actions on what is rendered, and the
    settling of a pending request.  A handler runs to its end before the
    next event.  The handlers of the buttons, of the banner and of the popup
    are those of the latest render; the click handler of a feature is the
    one its layer was created with.  A render that throws takes the page
    down; the model lets events go on after it, so the reachable worlds
    below include all those of the page. *)
Inductive Event :=
| ClickSearch
| Settle (o : Outcome)
| ClickClear
| ClickFeature (fid : Z)
| ClickCloseError
| ClosePopup.

Definition isRendered {A} (r : Render A) : bool :=
  match r with
  | Rendered _ => true
  | _ => false
  end.

Definition enabled (w : World) (e : Event) : bool :=
  match e with
  | ClickSearch => negb (searchDisabled (view w))
  | Settle _ => (0 <? inflight w)%nat
  | ClickClear => negb (clearDisabled (view w))
  | ClickFeature fid =>
      match layer w with
      | Some _ => rendersFeature fid (view w)
      | None => false
      end
  | ClickCloseError => rendersError (view w)
  | ClosePopup => isRendered (popup (view w))
  end.

Definition fire (w : World) (e : Event) : World :=
  match e with
  | ClickSearch =>
      rendered (searchStart (view w)) (S (inflight w)) (layer w)
  | Settle o =>
      rendered (searchFinish o (view w)) (pred (inflight w)) (layer w)
  | ClickClear =>
      rendered (clearSegments (view w)) (inflight w) (layer w)
  | ClickFeature fid =>
      match layer w with
      | Some captured =>
          rendered (clickFeature captured fid (view w)) (inflight w) (layer w)
      | None => w
      end
  | ClickCloseError =>
      rendered (closeErrorMessage (view w)) (inflight w) (layer w)
  | ClosePopup =>
      rendered (closePopup (view w)) (inflight w) (layer w)
  end.

Inductive reachable : World -> Prop :=
| reachable_init : reachable initialWorld
| reachable_step : forall w e,
    reachable w -> enabled w e = true -> reachable (fire w e).

(** Running a list of events from a world; [None] when one is not enabled. *)
Fixpoint run (w : World) (es : list Event) : option World :=
  match es with
  | [] => Some w
  | e :: rest => if enabled w e then run (fire w e) rest else None
  end.

(** ** Query builder (App.js, lines 17-55) *)

(** The argument of [searchSegments], as assembled by [handleAction]. *)
Record BoundingBox := mkBoundingBox {
  south : Q;
  west : Q;
  north : Q;
  east : Q
}.

(** [x < y] on numbers. *)
Definition Qltb (x y : Q) : bool :=
  match (x ?= y)%Q with
  | Lt => true
  | _ => false
  end.

(** [if (west < -180) { west += 360 }], and the same for [east]. *)
Definition wrapLongitude (x : Q) : Q :=
  if Qltb x (-180)%Q then (x + 360)%Q else x.

(** The double-quote character, and a tag filter of Overpass QL. *)
Definition dq : string := String "034"%char EmptyString.
Definition key (k : string) : string := "[" ++ dq ++ k ++ dq ++ "]".
Definition keyIs (k v : string) : string :=
  "[" ++ dq ++ k ++ dq ++ "=" ++ dq ++ v ++ dq ++ "]".

(** Line feed. *)
Definition nl : string := String "010"%char EmptyString.

(** The template literal of lines 24-55, its four holes already converted
    to text. *)
Definition queryTemplate (s w n e : string) : string :=
  nl ++
  "        [out:json][timeout:15][bbox:" ++ s ++ ", " ++ w ++ ", " ++ n ++ ", " ++ e ++ "];" ++ nl ++
  nl ++
  "        (" ++ nl ++
  "          wr" ++ keyIs "leisure" "park" ++ ";" ++ nl ++
  "          wr" ++ keyIs "leisure" "track" ++ ";" ++ nl ++
  "          wr" ++ keyIs "leisure" "nature_reserve" ++ ";  " ++ nl ++
  "        )->.areas;" ++ nl ++
  nl ++
  "        (" ++ nl ++
  "          .areas map_to_area;" ++ nl ++
  "        )->.areas;" ++ nl ++
  nl ++
  "        (" ++ nl ++
  "          way" ++ keyIs "highway" "pedestrian" ++ ";" ++ nl ++
  "          way" ++ keyIs "highway" "footpath" ++ ";" ++ nl ++
  "          way" ++ keyIs "highway" "footway" ++ ";" ++ nl ++
  "          way" ++ key "designated" ++ ";" ++ nl ++
  "          way" ++ key "yes" ++ ";" ++ nl ++
  "          way" ++ keyIs "foot" "use_sidepath" ++ ";" ++ nl ++
  "        )->.segments;" ++ nl ++
  nl ++
  "        (" ++ nl ++
  "          way.segments;" ++ nl ++
  "          -" ++ nl ++
  "          way.segments" ++ keyIs "access" "private" ++ ";" ++ nl ++
  "        )->.segments;" ++ nl ++
  "          " ++ nl ++
  "        way.segments(area.areas)->.segments;" ++ nl ++
  nl ++
  "        .segments out geom 100;" ++ nl ++
  "    ".

Section QueryBuilder.

(** JavaScript's conversion of a number to text inside a template
    literal. *)
Variable numberToString : Q -> string.

(** Lines 17-55 of [searchSegments]: wrap [west] and [east], then fill the
    template. *)
Definition buildQuery (bounds : BoundingBox) : string :=
  let west := wrapLongitude (west bounds) in
  let east := wrapLongitude (east bounds) in
  queryTemplate (numberToString (south bounds)) (numberToString west)
                (numberToString (north bounds)) (numberToString east).

End QueryBuilder.

(** The position of the first occurrence of each fragment, searching each
    one after the start of the previous one: [Some] positions when all of
    them occur in this order. *)
Fixpoint occurrences (from : nat) (frags : list string) (s : string)
  : option (list nat) :=
  match frags with
  | [] => Some []
  | f :: rest =>
      match String.index from f s with
      | None => None
      | Some p =>
          match occurrences (p + String.length f) rest s with
          | None => None
          | Some ps => Some (p :: ps)
          end
      end
  end.

Definition occurInOrder (frags : list string) (s : string) : bool :=
  match occurrences 0 frags s with
  | Some _ => true
  | None => false
  end.

(** A text in which an apostrophe stands for the double quote of the
    query: the expected text of the query is written this way. *)
Fixpoint quoted (s : string) : string :=
  match s with
  | EmptyString => EmptyString
  | String c rest =>
      String (if Ascii.eqb c "'"%char then "034"%char else c) (quoted rest)
  end.

(** How many times a fragment occurs in a text. *)
Fixpoint countOccurrences (frag s : string) : nat :=
  match s with
  | EmptyString => 0
  | String _ rest =>
      ((if String.prefix frag s then 1 else 0) + countOccurrences frag rest)%nat
  end.

(** ** The invariant of the transition system *)

(** While a request is pending the loader is on, nothing is displayed and
    no message is shown; a selection is the id of a rendered feature; a
    message is shown only over an empty map; there is a layer exactly when
    there are features, and its handlers were created with no selection. *)
Record Inv (w : World) : Prop := mkInv {
  inv_inflight : inflight w = if loading (view w) then 1%nat else 0%nat;
  inv_loading :
    loading (view w) = true ->
    segments (view w) = [] /\ errorMessage (view w) = EmptyString;
  inv_selected :
    forall x, selectedSegmentId (view w) = Some x ->
              rendersFeature x (view w) = true;
  inv_error :
    errorMessage (view w) <> EmptyString -> segments (view w) = [];
  inv_layer :
    layer w = match segments (view w) with
              | [] => None
              | _ :: _ => Some None
              end
}.

(** ** Concrete data used in the examples below *)

Definition tagsA : Tags := [("highway", "footway"); ("surface", "gravel")].
Definition tagsB : Tags := [("highway", "pedestrian")].

Definition elementA : RawElement :=
  mkRawElement 5
    (Some [mkPoint (-74.006)%Q 40.7128%Q; mkPoint (-74.005)%Q 40.7130%Q]) tagsA.
Definition elementB : RawElement :=
  mkRawElement 9 (Some [mkPoint (-74.001)%Q 40.7101%Q]) tagsB.

Definition responseAB : Outcome :=
  Resolved (mkResponseData (Some [elementA; elementB])).

Definition featureA : Feature :=
  mkFeature "Feature"
    (mkGeometry "LineString"
       [((-74.006)%Q, 40.7128%Q); ((-74.005)%Q, 40.7130%Q)]) tagsA 5.
Definition featureB : Feature :=
  mkFeature "Feature"
    (mkGeometry "LineString" [((-74.001)%Q, 40.7101%Q)]) tagsB 9.

(** The world after a search that returned the two example elements and a
    click on the first of them. *)
Definition worldSelected : World :=
  fire (fire (fire initialWorld ClickSearch) (Settle responseAB)) (ClickFeature 5).

(** The world after the same search and a click on the second element. *)
Definition worldNine : World :=
  fire (fire (fire initialWorld ClickSearch) (Settle responseAB)) (ClickFeature 9).

(** The world after a search that timed out. *)
Definition worldTimedOut : World :=
  fire (fire initialWorld ClickSearch) (Settle (Rejected (Some "ECONNABORTED"))).

(** An element whose id is 0. *)
Definition elementZero : RawElement :=
  mkRawElement 0 (Some [mkPoint (-74.006)%Q 40.7128%Q]) tagsB.
Definition featureZero : Feature :=
  mkFeature "Feature"
    (mkGeometry "LineString" [((-74.006)%Q, 40.7128%Q)]) tagsB 0.

(** The world after a search that returned it and a click on it. *)
Definition worldZero : World :=
  fire (fire (fire initialWorld ClickSearch)
             (Settle (Resolved (mkResponseData (Some [elementZero])))))
       (ClickFeature 0).

(** ** The two buttons of [ButtonOverlay] (App.js, lines 221-253) *)

(** The attributes of a button that depend on the props [segments] and
    [loading]; the source writes the condition out once for each. *)
Record ButtonProps := mkButton {
  disabled : bool;
  backgroundColor : string;
  cursor : string;
  opacity : Q
}.

(** "Search This Area" (lines 221-237). *)
Definition searchButton (segments : list Feature) (loading : bool)
  : ButtonProps :=
  mkButton
    ((0 <? Z.of_nat (List.length segments)) || loading)
    (if (0 <? Z.of_nat (List.length segments)) || loading
     then "#B0C4DE" else "#007BFF")
    (if (0 <? Z.of_nat (List.length segments)) || loading
     then "not-allowed" else "pointer")
    (if (0 <? Z.of_nat (List.length segments)) || loading
     then 0.6%Q else 1%Q).

(** "Clear Segments" (lines 238-253). *)
Definition clearButton (segments : list Feature) (loading : bool)
  : ButtonProps :=
  mkButton
    ((Z.of_nat (List.length segments) =? 0) || loading)
    (if (Z.of_nat (List.length segments) =? 0) || loading
     then "#B0C4DE" else "#28A745")
    (if (Z.of_nat (List.length segments) =? 0) || loading
     then "not-allowed" else "pointer")
    (if (Z.of_nat (List.length segments) =? 0) || loading
     then 0.6%Q else 1%Q).

(** The page is alive as long as rendering the popup does not throw. *)
Definition rendersWithoutThrowing (s : ViewState) : bool :=
  match popup s with
  | Throws => false
  | _ => true
  end.

(** ** More example data *)

(** An element whose line has no point. *)
Definition elementEmptyLine : RawElement := mkRawElement 5 (Some []) tagsA.

(** The world after a search that returned it and a click on it. *)
Definition worldEmptyLine : World :=
  fire (fire (fire initialWorld ClickSearch)
             (Settle (Resolved (mkResponseData (Some [elementEmptyLine])))))
       (ClickFeature 5).

(** An element without geometry. *)
Definition elementNoGeometry : RawElement := mkRawElement 6 None tagsB.

(** A second feature with the id of [featureA]. *)
Definition featureA' : Feature :=
  mkFeature "Feature"
    (mkGeometry "LineString" [((-73.999)%Q, 40.7000%Q)]) tagsB 5.

(** A view that straddles the antimeridian. *)
Definition boundsStraddling : BoundingBox :=
  mkBoundingBox 40 (-190) 41 (-170).

(** ** The three kinds of page *)

(** An idle page over an empty map, with no message or one of the two
    messages; the page that waits for its request; a page that displays the
    features of one response, with none or one of them selected, on a layer
    whose click handlers were created when nothing was selected. *)
Inductive Shape : World -> Prop :=
| shape_idle : forall msg,
    msg = EmptyString \/ msg = timeoutMessage \/ msg = failureMessage ->
    Shape (mkWorld (mkViewState [] None false msg) 0 None)
| shape_loading :
    Shape (mkWorld (mkViewState [] None true EmptyString) 1 None)
| shape_results : forall els fs sel,
    mapElements els = Some fs ->
    fs <> [] ->
    sel = None \/ (exists f, In f fs /\ sel = Some (id f)) ->
    Shape (mkWorld (mkViewState fs sel false EmptyString) 0 (Some None)).

(** * Properties *)

(** ** Elementary facts about the setters *)

Lemma searchStart_fields (s : ViewState) :
  searchStart s = mkViewState (segments s) (selectedSegmentId s) true EmptyString.
Proof. reflexivity. Qed.

Lemma searchFinish_success (o : Outcome) (fs : list Feature) (s : ViewState) :
  tryBlock o = inl fs ->
  searchFinish o s = mkViewState fs (selectedSegmentId s) false (errorMessage s).
Proof. intros H. unfold searchFinish. rewrite H. reflexivity. Qed.

Lemma searchFinish_failure (o : Outcome) (code : option string) (s : ViewState) :
  tryBlock o = inr code ->
  searchFinish o s =
  mkViewState (segments s) (selectedSegmentId s) false
              (if isTimeout code then timeoutMessage else failureMessage).
Proof.
  intros H. unfold searchFinish. rewrite H.
  destruct (isTimeout code); reflexivity.
Qed.

Lemma isTimeout_iff (code : option string) :
  isTimeout code = true <-> code = Some "ECONNABORTED".
Proof.
  destruct code as [c|]; simpl.
  - rewrite String.eqb_eq. split; congruence.
  - split; discriminate.
Qed.

(** ** Feature mapping *)

Lemma mapElements_total (els : list RawElement) :
  (forall el, In el els -> el_geometry el <> None) ->
  exists fs, mapElements els = Some fs.
Proof.
  induction els as [|el rest IH]; intros Hg.
  - exists []. reflexivity.
  - destruct IH as [fs Hfs]; [intros e He; apply Hg; right; exact He|].
    assert (Hel : el_geometry el <> None) by (apply Hg; left; reflexivity).
    simpl. unfold mapElement.
    destruct (el_geometry el) as [pts|]; [|congruence].
    rewrite Hfs. eexists. reflexivity.
Qed.

Lemma mapElements_length (els : list RawElement) :
  forall fs, mapElements els = Some fs -> List.length fs = List.length els.
Proof.
  induction els as [|el rest IH]; simpl; intros fs H.
  - injection H as <-. reflexivity.
  - destruct (mapElement el) as [f|]; [|discriminate].
    destruct (mapElements rest) as [fs'|]; [|discriminate].
    injection H as <-. simpl. f_equal. apply IH. reflexivity.
Qed.

Lemma mapElements_nth (els : list RawElement) :
  forall fs i el,
    mapElements els = Some fs ->
    nth_error els i = Some el ->
    exists f, nth_error fs i = Some f /\ mapElement el = Some f.
Proof.
  induction els as [|e rest IH]; intros fs i el H Hn.
  - destruct i; discriminate.
  - simpl in H.
    destruct (mapElement e) as [f|] eqn:He; [|discriminate].
    destruct (mapElements rest) as [fs'|] eqn:Hr; [|discriminate].
    injection H as <-.
    destruct i as [|i]; simpl in Hn |- *.
    + injection Hn as <-. exists f. split; [reflexivity | exact He].
    + eapply IH; [reflexivity | exact Hn].
Qed.

Lemma mapElement_fields (el : RawElement) (f : Feature) :
  mapElement el = Some f ->
  exists pts,
    el_geometry el = Some pts /\
    id f = el_id el /\
    properties f = el_tags el /\
    coordinates (geometry f) = map (fun p => (lon p, lat p)) pts.
Proof.
  unfold mapElement. destruct (el_geometry el) as [pts|]; [|discriminate].
  intros H. injection H as <-. exists pts. repeat split.
Qed.

(** ** The invariant is kept by every step *)

Lemma Inv_initial : Inv initialWorld.
Proof. constructor; simpl; intros; try discriminate; auto. Qed.

Lemma searchDisabled_false (s : ViewState) :
  searchDisabled s = false -> segments s = [] /\ loading s = false.
Proof.
  unfold searchDisabled. intros H. apply orb_false_elim in H as [Hl Hb].
  split; [|exact Hb].
  destruct (segments s); [reflexivity | discriminate].
Qed.

Lemma clearDisabled_false (s : ViewState) :
  clearDisabled s = false -> segments s <> [] /\ loading s = false.
Proof.
  unfold clearDisabled. intros H. apply orb_false_elim in H as [Hl Hb].
  split; [|exact Hb].
  destruct (segments s); [discriminate | congruence].
Qed.

Lemma pending_state (w : World) :
  Inv w -> (0 <? inflight w)%nat = true ->
  loading (view w) = true /\ inflight w = 1%nat /\
  segments (view w) = [] /\ selectedSegmentId (view w) = None /\
  errorMessage (view w) = EmptyString.
Proof.
  intros [Hi Hl Hs He _] Hp.
  destruct (loading (view w)) eqn:L.
  - destruct (Hl eq_refl) as [Hseg Herr].
    repeat split; auto.
    destruct (selectedSegmentId (view w)) as [x|] eqn:Hsel; [|reflexivity].
    specialize (Hs x eq_refl). unfold rendersFeature in Hs.
    rewrite Hseg in Hs. discriminate.
  - rewrite Hi in Hp. discriminate.
Qed.

Lemma renderLayer_empty (old : option (option Z)) (s : ViewState) :
  segments s = [] -> renderLayer old s = None.
Proof. unfold renderLayer. intros ->. reflexivity. Qed.

Lemma renderLayer_kept (captured : option Z) (s : ViewState) :
  segments s <> [] -> renderLayer (Some captured) s = Some captured.
Proof.
  unfold renderLayer. destruct (segments s); [congruence | reflexivity].
Qed.

Lemma renderLayer_created (s : ViewState) :
  segments s <> [] -> renderLayer None s = Some (selectedSegmentId s).
Proof.
  unfold renderLayer. destruct (segments s); [congruence | reflexivity].
Qed.

Lemma Inv_layer_empty (w : World) :
  Inv w -> segments (view w) = [] -> layer w = None.
Proof. intros HI H. rewrite (inv_layer w HI), H. reflexivity. Qed.

Lemma Inv_layer_features (w : World) :
  Inv w -> segments (view w) <> [] -> layer w = Some None.
Proof.
  intros HI H. rewrite (inv_layer w HI).
  destruct (segments (view w)); [congruence | reflexivity].
Qed.

Lemma Inv_step (w : World) (e : Event) :
  Inv w -> enabled w e = true -> Inv (fire w e).
Proof.
  intros HI En. destruct w as [[segs sel ld err] n ly].
  destruct HI as [Hi Hl Hs He Hy]. simpl in Hi, Hl, Hs, He, Hy.
  destruct e as [|o| |fid| |]; simpl in En.
  - (* ClickSearch *)
    apply negb_true_iff, searchDisabled_false in En as [Hseg Hld].
    simpl in Hseg, Hld. subst.
    constructor; simpl; auto.
  - (* Settle *)
    destruct ld; [|subst n; discriminate].
    destruct (Hl eq_refl) as [-> ->]. subst n ly.
    assert (sel = None) as ->.
    { destruct sel as [x|]; [|reflexivity].
      specialize (Hs x eq_refl). discriminate. }
    unfold fire. cbn [view inflight layer pred].
    destruct (tryBlock o) as [fs|code] eqn:T.
    + rewrite (searchFinish_success o fs _ T).
      cbn [selectedSegmentId errorMessage].
      constructor; simpl; try discriminate; try congruence.
      destruct fs; reflexivity.
    + rewrite (searchFinish_failure o code _ T).
      cbn [segments selectedSegmentId].
      constructor; simpl; try discriminate; auto.
  - (* ClickClear *)
    apply negb_true_iff, clearDisabled_false in En as [Hseg Hld].
    simpl in Hseg, Hld. subst ld.
    constructor; simpl; auto; try discriminate.
  - (* ClickFeature *)
    destruct segs as [|f rest]; [subst ly; discriminate|].
    subst ly. unfold fire, clickFeature. cbn [layer view inflight strictEq].
    constructor; simpl; auto; try discriminate.
    intros x Hx. injection Hx as <-. exact En.
  - (* ClickCloseError *)
    constructor; simpl; auto; try congruence.
    + intros H. split; [apply Hl; exact H | reflexivity].
    + rewrite Hy. destruct segs; reflexivity.
  - (* ClosePopup *)
    constructor; simpl; auto; try discriminate.
    rewrite Hy. destruct segs; reflexivity.
Qed.

Lemma reachable_Inv (w : World) : reachable w -> Inv w.
Proof.
  induction 1 as [|w e _ IH En].
  - apply Inv_initial.
  - apply Inv_step; assumption.
Qed.

Lemma run_reachable (es : list Event) :
  forall w w', reachable w -> run w es = Some w' -> reachable w'.
Proof.
  induction es as [|e rest IH]; simpl; intros w w' Hr H.
  - injection H as <-. exact Hr.
  - destruct (enabled w e) eqn:En; [|discriminate].
    apply (IH (fire w e)); [apply reachable_step; assumption | exact H].
Qed.

(** ** Search completion *)

(** C1 (as the code has it): a successful run of [searchSegments] replaces
    the features by the new list, empties the error message and stops the
    loader, and leaves [selectedSegmentId] as it was.  In every state that
    the interface can reach, the selection is already null while a request
    is pending, so it is null after the request settles successfully. *)
Theorem search_success_state (o : Outcome) (fs : list Feature) :
  tryBlock o = inl fs ->
  (forall s,
      segments (searchSegments o s) = fs /\
      selectedSegmentId (searchSegments o s) = selectedSegmentId s /\
      errorMessage (searchSegments o s) = EmptyString /\
      loading (searchSegments o s) = false) /\
  (forall w,
      reachable w -> enabled w (Settle o) = true ->
      segments (view (fire w (Settle o))) = fs /\
      selectedSegmentId (view (fire w (Settle o))) = None /\
      errorMessage (view (fire w (Settle o))) = EmptyString /\
      loading (view (fire w (Settle o))) = false).
Proof.
  intros T. split.
  - intros s. unfold searchSegments.
    rewrite (searchFinish_success o fs _ T). simpl. auto.
  - intros w Hr En.
    destruct (pending_state w (reachable_Inv w Hr) En)
      as (_ & _ & _ & Hsel & Herr).
    unfold fire. rewrite (searchFinish_success o fs _ T). simpl. auto.
Qed.

Lemma search_success_state_witness :
  tryBlock responseAB = inl [featureA; featureB] /\
  searchSegments responseAB initialState =
  mkViewState [featureA; featureB] None false EmptyString /\
  reachable (fire initialWorld ClickSearch) /\
  enabled (fire initialWorld ClickSearch) (Settle responseAB) = true /\
  selectedSegmentId
    (view (fire (fire initialWorld ClickSearch) (Settle responseAB))) = None.
Proof.
  assert (Hr : reachable (fire initialWorld ClickSearch)).
  { apply reachable_step; [apply reachable_init | reflexivity]. }
  destruct (search_success_state responseAB [featureA; featureB] eq_refl)
    as [H1 H2].
  split; [reflexivity|]. split; [reflexivity|].
  split; [exact Hr|]. split; [reflexivity|].
  exact (proj1 (proj2 (H2 (fire initialWorld ClickSearch) Hr eq_refl))).
Defined.

(** C1 as stated fails: a selection present before the search is still
    there after a successful completion. *)
Lemma search_success_keeps_selection :
  ~ (forall (o : Outcome) (fs : list Feature) (s : ViewState),
        tryBlock o = inl fs ->
        segments (searchSegments o s) = fs /\
        selectedSegmentId (searchSegments o s) = None /\
        errorMessage (searchSegments o s) = EmptyString /\
        loading (searchSegments o s) = false).
Proof.
  intros H.
  destruct (H responseAB [featureA; featureB]
              (mkViewState [] (Some 7) false EmptyString) eq_refl)
    as (_ & Hsel & _).
  discriminate Hsel.
Qed.

(** ** Clicks on a feature *)

Lemma clickFeature_selection (captured : option Z) (fid : Z) (s : ViewState) :
  clickFeature captured fid s =
  mkViewState (segments s)
              (if strictEq captured fid then None else Some fid)
              (loading s) (errorMessage s).
Proof. unfold clickFeature. destruct (strictEq captured fid); reflexivity. Qed.

Lemma enabled_ClickFeature (w : World) (fid : Z) :
  Inv w ->
  enabled w (ClickFeature fid) = true ->
  layer w = Some None /\ rendersFeature fid (view w) = true.
Proof.
  intros HI En. simpl in En.
  destruct (layer w) as [c|] eqn:L; [|discriminate].
  split; [|exact En].
  rewrite <- L. apply Inv_layer_features; [exact HI|].
  unfold rendersFeature in En. intros E. rewrite E in En. discriminate.
Qed.

Lemma fire_ClickFeature (w : World) (fid : Z) :
  Inv w ->
  enabled w (ClickFeature fid) = true ->
  fire w (ClickFeature fid) =
  mkWorld (setSelectedSegmentId (Some fid) (view w)) (inflight w) (Some None).
Proof.
  intros HI En. destruct (enabled_ClickFeature w fid HI En) as [L R].
  unfold fire. rewrite L. unfold rendered. f_equal.
  apply renderLayer_kept. simpl.
  unfold rendersFeature in R. intros E. rewrite E in R. discriminate.
Qed.

Lemma worldNine_reachable : reachable worldNine.
Proof.
  apply (run_reachable [ClickSearch; Settle responseAB; ClickFeature 9]
           initialWorld); [apply reachable_init | reflexivity].
Qed.

(** C2 (as the code has it): when the selection is an id other than X,
    two clicks on X do not bring it back.  Whatever selection the handler
    was created with, the two clicks leave X or null selected; on a
    reachable page the first click selects X, X can be clicked again, and
    the second click does not give the first selection back. *)
Theorem click_twice (x y : Z) :
  y <> x ->
  (forall (captured : option Z) (s : ViewState),
      selectedSegmentId s = Some y ->
      (selectedSegmentId (clickFeature captured x (clickFeature captured x s))
       = Some x \/
       selectedSegmentId (clickFeature captured x (clickFeature captured x s))
       = None) /\
      selectedSegmentId (clickFeature captured x (clickFeature captured x s))
      <> selectedSegmentId s) /\
  (forall w : World,
      reachable w ->
      selectedSegmentId (view w) = Some y ->
      enabled w (ClickFeature x) = true ->
      selectedSegmentId (view (fire w (ClickFeature x))) = Some x /\
      enabled (fire w (ClickFeature x)) (ClickFeature x) = true /\
      selectedSegmentId
        (view (fire (fire w (ClickFeature x)) (ClickFeature x)))
      <> selectedSegmentId (view w)).
Proof.
  intros Hyx. split.
  - intros captured s Hsel.
    rewrite !clickFeature_selection. cbn [selectedSegmentId].
    rewrite Hsel.
    destruct (strictEq captured x); split; auto; congruence.
  - intros w Hr Hsel En.
    pose proof (reachable_Inv w Hr) as HI.
    assert (Hr1 : reachable (fire w (ClickFeature x)))
      by (apply reachable_step; assumption).
    destruct (enabled_ClickFeature w x HI En) as [_ R].
    rewrite (fire_ClickFeature w x HI En) in *.
    assert (En1 : enabled
                    (mkWorld (setSelectedSegmentId (Some x) (view w))
                             (inflight w) (Some None))
                    (ClickFeature x) = true) by exact R.
    split; [reflexivity|]. split; [exact En1|].
    rewrite (fire_ClickFeature _ x (reachable_Inv _ Hr1) En1).
    cbn [view selectedSegmentId setSelectedSegmentId].
    rewrite Hsel. congruence.
Qed.

Lemma click_twice_witness :
  selectedSegmentId (view worldNine) = Some 9 /\
  enabled worldNine (ClickFeature 5) = true /\
  selectedSegmentId (view (fire worldNine (ClickFeature 5))) = Some 5 /\
  selectedSegmentId
    (clickFeature None 5 (clickFeature None 5 (view worldNine)))
  <> selectedSegmentId (view worldNine).
Proof.
  assert (H : (9 <> 5)%Z) by discriminate.
  destruct (click_twice 5 9 H) as [Hf Hw].
  split; [reflexivity|]. split; [reflexivity|]. split.
  - exact (proj1 (Hw worldNine worldNine_reachable eq_refl eq_refl)).
  - exact (proj2 (Hf None (view worldNine) eq_refl)).
Defined.

(** C2 as stated fails: with the second feature selected, two clicks on
    the first one leave the first one selected. *)
Lemma click_twice_loses_other_selection :
  selectedSegmentId (view worldNine) = Some 9 /\
  selectedSegmentId
    (view (fire (fire worldNine (ClickFeature 5)) (ClickFeature 5))) = Some 5 /\
  selectedSegmentId
    (view (fire (fire worldNine (ClickFeature 5)) (ClickFeature 5)))
  <> selectedSegmentId (view worldNine).
Proof.
  split; [reflexivity|]. split; [reflexivity|].
  simpl. discriminate.
Qed.

(** ** Feature mapping *)

(** C4: a response whose [elements] are N elements with a geometry yields
    exactly N features, in the same order; the i-th feature has the i-th
    element's id, its tags as properties, and its points as [lon, lat]
    pairs in their order.  The list becomes the [segments] of the state. *)
Theorem mapping_preserves_elements (els : list RawElement) :
  (forall el, In el els -> el_geometry el <> None) ->
  exists fs,
    tryBlock (Resolved (mkResponseData (Some els))) = inl fs /\
    (forall s,
        segments (searchSegments (Resolved (mkResponseData (Some els))) s) = fs) /\
    List.length fs = List.length els /\
    (forall i el,
        nth_error els i = Some el ->
        exists f pts,
          nth_error fs i = Some f /\
          el_geometry el = Some pts /\
          id f = el_id el /\
          properties f = el_tags el /\
          coordinates (geometry f) = map (fun p => (lon p, lat p)) pts).
Proof.
  intros Hg. destruct (mapElements_total els Hg) as [fs Hfs].
  assert (T : tryBlock (Resolved (mkResponseData (Some els))) = inl fs).
  { simpl. rewrite Hfs. reflexivity. }
  exists fs. split; [exact T|]. split; [|split].
  - intros s. unfold searchSegments.
    rewrite (searchFinish_success _ fs _ T). reflexivity.
  - apply mapElements_length. exact Hfs.
  - intros i el Hn.
    destruct (mapElements_nth els fs i el Hfs Hn) as (f & Hf & Hm).
    destruct (mapElement_fields el f Hm) as (pts & Hp & Hid & Hpr & Hc).
    exists f, pts. auto.
Qed.

Lemma mapping_preserves_elements_witness :
  exists fs,
    tryBlock responseAB = inl fs /\
    List.length fs = 2%nat.
Proof.
  assert (Hg : forall el, In el [elementA; elementB] -> el_geometry el <> None).
  { intros el [<- | [<- | []]]; discriminate. }
  destruct (mapping_preserves_elements [elementA; elementB] Hg)
    as (fs & T & _ & L & _).
  exists fs. split; [exact T | exact L].
Defined.

(** ** Failures *)

(** C5: whatever reaches [catch] is classified in two kinds.  An error whose
    code is ECONNABORTED (the client-side timeout) sets the timeout message,
    any other error sets the generic one; in both cases the features are
    left as they were and the loader is stopped. *)
Theorem failure_messages (o : Outcome) (code : option string) (s : ViewState) :
  tryBlock o = inr code ->
  (code = Some "ECONNABORTED" ->
   errorMessage (searchSegments o s) =
   "Query timed out. Try reducing the search area.") /\
  (code <> Some "ECONNABORTED" ->
   errorMessage (searchSegments o s) =
   "An error occurred while fetching the data.") /\
  segments (searchSegments o s) = segments s /\
  loading (searchSegments o s) = false.
Proof.
  intros T. unfold searchSegments.
  rewrite (searchFinish_failure o code _ T). simpl.
  repeat split.
  - intros H. apply isTimeout_iff in H. rewrite H. reflexivity.
  - intros H. destruct (isTimeout code) eqn:E; [|reflexivity].
    apply isTimeout_iff in E. contradiction.
Qed.

Lemma failure_messages_witness :
  errorMessage (searchSegments (Rejected (Some "ECONNABORTED")) initialState) =
  "Query timed out. Try reducing the search area." /\
  errorMessage (searchSegments (Rejected (Some "ERR_NETWORK")) initialState) =
  "An error occurred while fetching the data." /\
  errorMessage
    (searchSegments (Resolved (mkResponseData None))
       (mkViewState [featureA] None false EmptyString)) =
  "An error occurred while fetching the data." /\
  segments
    (searchSegments (Resolved (mkResponseData None))
       (mkViewState [featureA] None false EmptyString)) = [featureA].
Proof.
  split; [|split; [|split]].
  - apply (proj1 (failure_messages (Rejected (Some "ECONNABORTED"))
                    (Some "ECONNABORTED") initialState eq_refl)).
    reflexivity.
  - apply (proj1 (proj2 (failure_messages (Rejected (Some "ERR_NETWORK"))
                           (Some "ERR_NETWORK") initialState eq_refl))).
    discriminate.
  - apply (proj1 (proj2 (failure_messages (Resolved (mkResponseData None))
                           None (mkViewState [featureA] None false EmptyString)
                           eq_refl))).
    discriminate.
  - apply (proj1 (proj2 (proj2 (failure_messages (Resolved (mkResponseData None))
                           None (mkViewState [featureA] None false EmptyString)
                           eq_refl)))).
Defined.

(** ** Clearing *)

(** C9: [clearSegments] empties the features, nulls the selection, empties
    the error message and leaves the loading flag as it was. *)
Theorem clear_resets (s : ViewState) :
  segments (clearSegments s) = [] /\
  selectedSegmentId (clearSegments s) = None /\
  errorMessage (clearSegments s) = EmptyString /\
  loading (clearSegments s) = loading s.
Proof. repeat split. Qed.

(** ** Reachable states *)

Lemma rendersFeature_In (x : Z) (s : ViewState) :
  rendersFeature x s = true <->
  exists feature, In feature (segments s) /\ id feature = x.
Proof.
  unfold rendersFeature. rewrite existsb_exists.
  split; intros (f & Hin & Hf); exists f; split; auto.
  - apply Z.eqb_eq. exact Hf.
  - apply Z.eqb_eq. exact Hf.
Qed.

Lemma worldSelected_reachable : reachable worldSelected.
Proof.
  apply (run_reachable [ClickSearch; Settle responseAB; ClickFeature 5]
           initialWorld); [apply reachable_init | reflexivity].
Qed.

Lemma worldTimedOut_reachable : reachable worldTimedOut.
Proof.
  apply (run_reachable [ClickSearch; Settle (Rejected (Some "ECONNABORTED"))]
           initialWorld); [apply reachable_init | reflexivity].
Qed.

(** C6: in every state reachable by searching when the button is enabled,
    the settling of a request, clicking rendered features, clearing,
    dismissing the error and closing the popup, a selection that is set is
    the id of one of the current features. *)
Theorem selection_among_features (w : World) (x : Z) :
  reachable w ->
  selectedSegmentId (view w) = Some x ->
  exists feature, In feature (segments (view w)) /\ id feature = x.
Proof.
  intros Hr Hsel. apply rendersFeature_In.
  apply (inv_selected w (reachable_Inv w Hr)). exact Hsel.
Qed.

Lemma selection_among_features_witness :
  reachable worldSelected /\
  selectedSegmentId (view worldSelected) = Some 5 /\
  exists feature, In feature (segments (view worldSelected)) /\ id feature = 5.
Proof.
  split; [exact worldSelected_reachable|].
  split; [reflexivity|].
  apply (selection_among_features worldSelected 5 worldSelected_reachable).
  reflexivity.
Defined.

(** C10: in every reachable state a non-empty error message comes with an
    empty feature list.  The steps that make it so: a search starts only
    from an empty list, while a request is pending the list stays empty and
    the message is empty, only the failure of a request writes a message,
    and clearing empties both. *)
Theorem error_only_without_features (w : World) :
  reachable w ->
  (errorMessage (view w) <> EmptyString -> segments (view w) = []) /\
  (enabled w ClickSearch = true -> segments (view w) = []) /\
  (forall o, enabled w (Settle o) = true ->
             segments (view w) = [] /\ errorMessage (view w) = EmptyString) /\
  (forall e, enabled w e = true ->
             errorMessage (view (fire w e)) <> EmptyString ->
             errorMessage (view (fire w e)) = errorMessage (view w) \/
             exists o code, e = Settle o /\ tryBlock o = inr code) /\
  errorMessage (clearSegments (view w)) = EmptyString.
Proof.
  intros Hr. pose proof (reachable_Inv w Hr) as HI.
  split; [exact (inv_error w HI)|]. split; [|split; [|split]].
  - simpl. intros En.
    apply negb_true_iff, searchDisabled_false in En. tauto.
  - intros o En. destruct (pending_state w HI En) as (_ & _ & Hs & _ & He).
    split; assumption.
  - intros e _. destruct e as [|o| |fid| |]; unfold fire;
      try (intros H; exfalso; apply H; reflexivity);
      try (intros _; left; reflexivity).
    + destruct (tryBlock o) as [fs|code] eqn:T; intros _.
      * left. rewrite (searchFinish_success o fs _ T). reflexivity.
      * right. exists o, code. split; [reflexivity | exact T].
    + intros _. left.
      destruct (layer w) as [captured|]; [|reflexivity].
      cbn [view rendered]. rewrite clickFeature_selection. reflexivity.
  - reflexivity.
Qed.

Lemma error_only_without_features_witness :
  reachable worldTimedOut /\
  errorMessage (view worldTimedOut) <> EmptyString /\
  segments (view worldTimedOut) = [].
Proof.
  split; [exact worldTimedOut_reachable|].
  split; [discriminate|].
  apply (proj1 (error_only_without_features worldTimedOut worldTimedOut_reachable)).
  discriminate.
Defined.

(** ** Longitude wrapping *)

Lemma Qltb_lt (x y : Q) : Qltb x y = true <-> (x < y)%Q.
Proof.
  unfold Qltb. rewrite Qlt_alt.
  destruct (x ?= y)%Q; split; congruence.
Qed.

Lemma wrapLongitude_below (x : Q) :
  (x < -180)%Q -> wrapLongitude x = (x + 360)%Q.
Proof.
  intros H. unfold wrapLongitude.
  apply Qltb_lt in H. rewrite H. reflexivity.
Qed.

Lemma wrapLongitude_above (x : Q) :
  (-180 <= x)%Q -> wrapLongitude x = x.
Proof.
  intros H. unfold wrapLongitude.
  destruct (Qltb x (-180)) eqn:E; [|reflexivity].
  apply Qltb_lt in E. lra.
Qed.

(** C3 (as the code has it): the query embeds the wrapped [west] and
    [east]; a coordinate below -180 is wrapped by adding 360 once, which
    gives a value below 180 that is at least -180 exactly when the
    coordinate was at least -540. *)
Theorem wrap_adds_360_once (numberToString : Q -> string) (b : BoundingBox) :
  buildQuery numberToString b =
  queryTemplate (numberToString (south b))
                (numberToString (wrapLongitude (west b)))
                (numberToString (north b))
                (numberToString (wrapLongitude (east b))) /\
  (forall x : Q,
      (x < -180)%Q ->
      wrapLongitude x = (x + 360)%Q /\
      (wrapLongitude x < 180)%Q /\
      ((-180 <= wrapLongitude x)%Q <-> (-540 <= x)%Q)).
Proof.
  split; [reflexivity|].
  intros x H. rewrite (wrapLongitude_below x H).
  split; [reflexivity|]. split; [lra|]. split; intros; lra.
Qed.

Lemma wrap_adds_360_once_witness :
  (-190 < -180)%Q /\
  wrapLongitude (-190) = 170%Q /\
  (-180 <= wrapLongitude (-190))%Q /\
  (wrapLongitude (-190) < 180)%Q.
Proof.
  split; [reflexivity|].
  destruct (wrap_adds_360_once (fun _ => EmptyString)
              (mkBoundingBox 40 (-190) 41 (-189))) as [_ H].
  assert (Hlt : (-190 < -180)%Q) by reflexivity.
  destruct (H (-190)%Q Hlt) as (H1 & H2 & H3).
  split; [exact H1|].
  split; [apply H3; discriminate | exact H2].
Defined.

(** C3 as stated fails: a view whose western edge is at -600 gets -240
    embedded, which is below -180. *)
Lemma wrap_leaves_range_at_minus_600 :
  (-600 < -180)%Q /\
  wrapLongitude (-600) = (-240)%Q /\
  ~ (-180 <= wrapLongitude (-600))%Q.
Proof.
  split; [reflexivity|]. split; [reflexivity|].
  intros H. apply H. reflexivity.
Qed.

(** ** Query text *)

(** C7: for every bounding box the query is the text below, character
    for character: the settings for JSON output and a 15 second timeout,
    the bounding box as south, west, north and east (west and east
    wrapped) separated by a comma and a space, the union of the areas
    tagged leisure=park, leisure=track and leisure=nature_reserve, the
    union of the ways tagged highway=pedestrian, highway=footpath,
    highway=footway, designated, yes or foot=use_sidepath, the removal of
    the ways tagged access=private, the restriction of the ways to the
    areas, and a single output statement, with geometry and the limit 100.
    The filters occur in this order in the query, and the timeout and the
    output statement occur once. *)
Theorem query_shape (numberToString : Q -> string) (b : BoundingBox) :
  buildQuery numberToString b =
  String.concat nl
    [ EmptyString;
      "        [out:json][timeout:15][bbox:" ] ++
  numberToString (south b) ++ ", " ++
  numberToString (wrapLongitude (west b)) ++ ", " ++
  numberToString (north b) ++ ", " ++
  numberToString (wrapLongitude (east b)) ++
  quoted
    (String.concat nl
       [ "];";
         EmptyString;
         "        (";
         "          wr['leisure'='park'];";
         "          wr['leisure'='track'];";
         "          wr['leisure'='nature_reserve'];  ";
         "        )->.areas;";
         EmptyString;
         "        (";
         "          .areas map_to_area;";
         "        )->.areas;";
         EmptyString;
         "        (";
         "          way['highway'='pedestrian'];";
         "          way['highway'='footpath'];";
         "          way['highway'='footway'];";
         "          way['designated'];";
         "          way['yes'];";
         "          way['foot'='use_sidepath'];";
         "        )->.segments;";
         EmptyString;
         "        (";
         "          way.segments;";
         "          -";
         "          way.segments['access'='private'];";
         "        )->.segments;";
         "          ";
         "        way.segments(area.areas)->.segments;";
         EmptyString;
         "        .segments out geom 100;";
         "    " ])
  /\
  occurInOrder
    (map quoted
       [ "[out:json]";
         "[timeout:15]";
         "[bbox:, , , ];";
         "(";
         "wr['leisure'='park'];";
         "wr['leisure'='track'];";
         "wr['leisure'='nature_reserve'];";
         ")->.areas;";
         "(";
         ".areas map_to_area;";
         ")->.areas;";
         "(";
         "way['highway'='pedestrian'];";
         "way['highway'='footpath'];";
         "way['highway'='footway'];";
         "way['designated'];";
         "way['yes'];";
         "way['foot'='use_sidepath'];";
         ")->.segments;";
         "(";
         "way.segments;";
         "-";
         "way.segments['access'='private'];";
         ")->.segments;";
         "way.segments(area.areas)->.segments;";
         ".segments out geom 100;" ])
    (buildQuery (fun _ => EmptyString) b) = true
  /\
  countOccurrences "timeout" (buildQuery (fun _ => EmptyString) b) = 1%nat
  /\
  countOccurrences " out " (buildQuery (fun _ => EmptyString) b) = 1%nat
  /\
  countOccurrences "wr[" (buildQuery (fun _ => EmptyString) b) = 3%nat
  /\
  countOccurrences "way[" (buildQuery (fun _ => EmptyString) b) = 6%nat.
Proof.
  split; [reflexivity|].
  repeat split; vm_compute; reflexivity.
Qed.

(** ** Popup *)

(** A selection that is a non-zero id of a feature with at least one
    coordinate gets a popup at [lat, lon] of the first coordinate of the
    first feature with that id, showing that feature's tags. *)
Lemma popup_for_nonzero_id (s : ViewState) (sel : Z) (segment : Feature)
      (c : Q * Q) (rest : list (Q * Q)) :
  selectedSegmentId s = Some sel ->
  sel <> 0 ->
  findSegment sel (segments s) = Some segment ->
  coordinates (geometry segment) = c :: rest ->
  popup s = Rendered (mkPopup (snd c, fst c) (properties segment)).
Proof.
  intros Hsel Hnz Hfind Hc. unfold popup. rewrite Hsel. simpl.
  destruct (Z.eqb_spec sel 0) as [E|_]; [contradiction|]. simpl.
  rewrite Hfind, Hc. reflexivity.
Qed.

Lemma popup_for_nonzero_id_example :
  popup (view worldSelected) =
  Rendered (mkPopup (40.7128%Q, (-74.006)%Q) tagsA).
Proof.
  apply (popup_for_nonzero_id (view worldSelected) 5 featureA
           ((-74.006)%Q, 40.7128%Q) [((-74.005)%Q, 40.7130%Q)]);
    try reflexivity.
  discriminate.
Qed.

(** C8 at an id equal to 0: after a search that returned an element with
    id 0 and a click on it, the feature is the selected one (it is found by
    id, has a first coordinate and is styled as selected), and no popup is
    rendered. *)
Theorem popup_absent_for_id_zero :
  reachable worldZero /\
  view worldZero = mkViewState [featureZero] (Some 0) false EmptyString /\
  findSegment 0 (segments (view worldZero)) = Some featureZero /\
  isSelected (view worldZero) featureZero = true /\
  styleColor (view worldZero) featureZero = "darkblue" /\
  popup (view worldZero) = NotRendered.
Proof.
  split.
  - apply (run_reachable
             [ClickSearch;
              Settle (Resolved (mkResponseData (Some [elementZero])));
              ClickFeature 0] initialWorld);
      [apply reachable_init | reflexivity].
  - repeat split.
Qed.

(** * Further properties of the code *)

(** ** Requests and the loader *)

(** X1: the button gate keeps at most one request pending; one is pending
    exactly while the loader is shown, and then no search can be started. *)
Theorem at_most_one_request (w : World) :
  reachable w ->
  (inflight w <= 1)%nat /\
  (inflight w = 1%nat <-> loading (view w) = true) /\
  (inflight w = 1%nat -> enabled w ClickSearch = false).
Proof.
  intros Hr. destruct (reachable_Inv w Hr) as [Hi _ _ _].
  unfold enabled, searchDisabled.
  destruct (loading (view w)); rewrite Hi.
  - repeat split; auto. intros _. rewrite orb_true_r. reflexivity.
  - repeat split; auto; discriminate.
Qed.

Lemma at_most_one_request_witness :
  reachable (fire initialWorld ClickSearch) /\
  inflight (fire initialWorld ClickSearch) = 1%nat /\
  enabled (fire initialWorld ClickSearch) ClickSearch = false.
Proof.
  assert (Hr : reachable (fire initialWorld ClickSearch)).
  { apply reachable_step; [apply reachable_init | reflexivity]. }
  split; [exact Hr|]. split; [reflexivity|].
  apply (proj2 (proj2 (at_most_one_request _ Hr))). reflexivity.
Defined.

(** X2: while the loader is shown nothing else is: no feature, no popup,
    no error banner, and the only thing that can happen is the settling of
    the request. *)
Theorem loading_page_is_inert (w : World) :
  reachable w ->
  loading (view w) = true ->
  segments (view w) = [] /\
  popup (view w) = NotRendered /\
  rendersError (view w) = false /\
  (forall e, enabled w e = true -> exists o, e = Settle o).
Proof.
  intros Hr Hl. pose proof (reachable_Inv w Hr) as HI.
  assert (En : (0 <? inflight w)%nat = true).
  { rewrite (inv_inflight w HI), Hl. reflexivity. }
  destruct (pending_state w HI En) as (_ & _ & Hseg & Hsel & Herr).
  assert (Hp : popup (view w) = NotRendered).
  { unfold popup. rewrite Hsel. reflexivity. }
  split; [exact Hseg|]. split; [exact Hp|].
  split; [unfold rendersError; rewrite Herr; reflexivity|].
  intros e. destruct e as [|o| |fid| |]; simpl.
  - unfold searchDisabled. rewrite Hl, orb_true_r. discriminate.
  - intros _. exists o. reflexivity.
  - unfold clearDisabled. rewrite Hl, orb_true_r. discriminate.
  - destruct (layer w); [unfold rendersFeature; rewrite Hseg|]; discriminate.
  - unfold rendersError. rewrite Herr. discriminate.
  - rewrite Hp. discriminate.
Qed.

Lemma loading_page_is_inert_witness :
  reachable (fire initialWorld ClickSearch) /\
  loading (view (fire initialWorld ClickSearch)) = true /\
  popup (view (fire initialWorld ClickSearch)) = NotRendered.
Proof.
  assert (Hr : reachable (fire initialWorld ClickSearch)).
  { apply reachable_step; [apply reachable_init | reflexivity]. }
  split; [exact Hr|]. split; [reflexivity|].
  exact (proj1 (proj2 (loading_page_is_inert _ Hr eq_refl))).
Defined.

(** X3: a request that settles with an empty list of elements puts the
    page back in the state it started in: nothing tells an empty result
    from no search at all. *)
Theorem empty_result_is_initial (w : World) :
  reachable w ->
  enabled w (Settle (Resolved (mkResponseData (Some [])))) = true ->
  fire w (Settle (Resolved (mkResponseData (Some [])))) = initialWorld.
Proof.
  intros Hr En.
  destruct (pending_state w (reachable_Inv w Hr) En)
    as (_ & Hn & _ & Hsel & Herr).
  unfold fire.
  rewrite (searchFinish_success (Resolved (mkResponseData (Some []))) []
             (view w) eq_refl), Hn, Hsel, Herr.
  reflexivity.
Qed.

Lemma empty_result_is_initial_witness :
  reachable (fire initialWorld ClickSearch) /\
  fire (fire initialWorld ClickSearch)
       (Settle (Resolved (mkResponseData (Some [])))) = initialWorld.
Proof.
  assert (Hr : reachable (fire initialWorld ClickSearch)).
  { apply reachable_step; [apply reachable_init | reflexivity]. }
  split; [exact Hr|].
  apply (empty_result_is_initial _ Hr). reflexivity.
Defined.

(** X4: whenever "Clear Segments" can be clicked, clicking it gives back
    the initial page, with no request pending. *)
Theorem clear_returns_to_initial (w : World) :
  reachable w ->
  enabled w ClickClear = true ->
  fire w ClickClear = initialWorld.
Proof.
  intros Hr En. simpl in En.
  apply negb_true_iff, clearDisabled_false in En as [_ Hl].
  destruct (reachable_Inv w Hr) as [Hi _ _ _].
  rewrite Hl in Hi. unfold fire, clearSegments, setErrorMessage,
    setSelectedSegmentId, setSegments. simpl.
  rewrite Hi, Hl. reflexivity.
Qed.

Lemma clear_returns_to_initial_witness :
  reachable worldSelected /\
  enabled worldSelected ClickClear = true /\
  fire worldSelected ClickClear = initialWorld.
Proof.
  split; [exact worldSelected_reachable|]. split; [reflexivity|].
  apply (clear_returns_to_initial _ worldSelected_reachable). reflexivity.
Defined.

(** X5: after a request has failed the banner is shown over an empty map:
    the search can be started again at once and the banner can be closed,
    and nothing else can be done; in particular "Clear Segments" is
    disabled. *)
Theorem after_failure_retry (w : World) (o : Outcome) (code : option string) :
  reachable w ->
  enabled w (Settle o) = true ->
  tryBlock o = inr code ->
  enabled (fire w (Settle o)) ClickSearch = true /\
  enabled (fire w (Settle o)) ClickCloseError = true /\
  (forall e, enabled (fire w (Settle o)) e = true ->
             e = ClickSearch \/ e = ClickCloseError).
Proof.
  intros Hr En T.
  destruct (pending_state w (reachable_Inv w Hr) En)
    as (_ & Hn & Hseg & Hsel & _).
  unfold fire. rewrite (searchFinish_failure o code _ T), Hn, Hseg, Hsel.
  assert (Hm : rendersError
                 (mkViewState [] None false
                    (if isTimeout code then timeoutMessage else failureMessage))
               = true).
  { destruct (isTimeout code); reflexivity. }
  split; [reflexivity|]. split; [exact Hm|].
  intros e. destruct e as [|o'| |fid| |]; simpl; auto; discriminate.
Qed.

Lemma after_failure_retry_witness :
  reachable (fire initialWorld ClickSearch) /\
  enabled worldTimedOut ClickSearch = true /\
  enabled worldTimedOut ClickClear = false.
Proof.
  assert (Hr : reachable (fire initialWorld ClickSearch)).
  { apply reachable_step; [apply reachable_init | reflexivity]. }
  split; [exact Hr|].
  destruct (after_failure_retry (fire initialWorld ClickSearch)
              (Rejected (Some "ECONNABORTED")) (Some "ECONNABORTED")
              Hr eq_refl eq_refl) as (H1 & _ & _).
  split; [exact H1 | reflexivity].
Defined.

(** X6: the error message of a reachable state is empty or one of the two
    texts of the [catch] block. *)
Theorem error_message_values (w : World) :
  reachable w ->
  errorMessage (view w) = EmptyString \/
  errorMessage (view w) = "Query timed out. Try reducing the search area." \/
  errorMessage (view w) = "An error occurred while fetching the data.".
Proof.
  induction 1 as [|w e _ IH _].
  - left. reflexivity.
  - destruct e as [|o| |fid| |]; unfold fire; try (left; reflexivity).
    + destruct (tryBlock o) as [fs|code] eqn:T.
      * rewrite (searchFinish_success o fs _ T). exact IH.
      * rewrite (searchFinish_failure o code _ T). simpl.
        destruct (isTimeout code); auto.
    + destruct (layer w) as [captured|]; [|exact IH].
      cbn [view rendered]. rewrite clickFeature_selection. exact IH.
    + exact IH.
Qed.

Lemma error_message_values_witness :
  reachable worldTimedOut /\
  (errorMessage (view worldTimedOut) = EmptyString \/
   errorMessage (view worldTimedOut) =
   "Query timed out. Try reducing the search area." \/
   errorMessage (view worldTimedOut) =
   "An error occurred while fetching the data.").
Proof.
  split; [exact worldTimedOut_reachable|].
  exact (error_message_values worldTimedOut worldTimedOut_reachable).
Defined.

(** ** The buttons *)

(** X7: the two buttons are never enabled together; both are disabled
    while loading, and otherwise exactly one is enabled: "Search This Area"
    over an empty map, "Clear Segments" over a map with features. *)
Theorem buttons_exclusive (segs : list Feature) (ld : bool) :
  (disabled (searchButton segs ld) = false ->
   disabled (clearButton segs ld) = true) /\
  (ld = true ->
   disabled (searchButton segs ld) = true /\
   disabled (clearButton segs ld) = true) /\
  (ld = false ->
   disabled (searchButton segs ld) = negb (disabled (clearButton segs ld)) /\
   (disabled (searchButton segs ld) = false <-> segs = [])).
Proof.
  destruct segs as [|f rest], ld; simpl; repeat split;
    intros; try reflexivity; try discriminate; try congruence.
Qed.

Lemma buttons_exclusive_witness :
  disabled (searchButton [] false) = false /\
  disabled (clearButton [] false) = true /\
  disabled (searchButton [featureA] false) = true /\
  disabled (clearButton [featureA] false) = false.
Proof.
  split; [reflexivity|].
  split; [apply (proj1 (buttons_exclusive [] false)); reflexivity|].
  destruct (proj2 (proj2 (buttons_exclusive [featureA] false)) eq_refl)
    as [H _].
  split; reflexivity.
Defined.

(** The look of each button follows its [disabled] attribute, and that
    attribute is the gate used by the transition system. *)
Lemma button_style_matches_disabled (segs : list Feature) (ld : bool) :
  (backgroundColor (searchButton segs ld) =
     (if disabled (searchButton segs ld) then "#B0C4DE" else "#007BFF") /\
   cursor (searchButton segs ld) =
     (if disabled (searchButton segs ld) then "not-allowed" else "pointer") /\
   opacity (searchButton segs ld) =
     (if disabled (searchButton segs ld) then 0.6%Q else 1%Q)) /\
  (backgroundColor (clearButton segs ld) =
     (if disabled (clearButton segs ld) then "#B0C4DE" else "#28A745") /\
   cursor (clearButton segs ld) =
     (if disabled (clearButton segs ld) then "not-allowed" else "pointer") /\
   opacity (clearButton segs ld) =
     (if disabled (clearButton segs ld) then 0.6%Q else 1%Q)) /\
  disabled (searchButton segs ld) =
    searchDisabled (mkViewState segs None ld EmptyString) /\
  disabled (clearButton segs ld) =
    clearDisabled (mkViewState segs None ld EmptyString).
Proof. repeat split. Qed.

(** ** The popup *)

Lemma findSegment_Some (sel : Z) (l : list Feature) (segment : Feature) :
  findSegment sel l = Some segment -> In segment l /\ id segment = sel.
Proof.
  unfold findSegment. intros H. apply find_some in H as [Hin Hid].
  split; [exact Hin | apply Z.eqb_eq; exact Hid].
Qed.

Lemma findSegment_first (sel : Z) (l1 l2 : list Feature) (f : Feature) :
  (forall g, In g l1 -> id g <> sel) ->
  id f = sel ->
  findSegment sel (l1 ++ f :: l2) = Some f.
Proof.
  unfold findSegment. intros Hl1 Hf.
  induction l1 as [|g rest IH]; simpl.
  - rewrite Hf, Z.eqb_refl. reflexivity.
  - destruct (Z.eqb_spec (id g) sel) as [E|_].
    + exfalso. apply (Hl1 g); [left; reflexivity | exact E].
    + apply IH. intros h Hh. apply Hl1. right. exact Hh.
Qed.

Lemma rendered_has_segment (sel : Z) (s : ViewState) :
  rendersFeature sel s = true -> findSegment sel (segments s) <> None.
Proof.
  unfold rendersFeature, findSegment. intros H.
  apply existsb_exists in H as (f & Hin & Hf).
  intros Hnone. pose proof (find_none _ _ Hnone f Hin) as Hc.
  simpl in Hc. congruence.
Qed.

(** X8: a popup is only ever shown for a feature of the list that is
    styled as selected: it sits at [lat, lon] of that feature's first
    coordinate and shows that feature's tags. *)
Theorem popup_belongs_to_selected (s : ViewState) (p : PopupProps) :
  popup s = Rendered p ->
  exists feature c,
    In feature (segments s) /\
    isSelected s feature = true /\
    hd_error (coordinates (geometry feature)) = Some c /\
    position p = (snd c, fst c) /\
    details p = properties feature.
Proof.
  unfold popup, isSelected.
  destruct (selectedSegmentId s) as [sel|]; simpl; [|discriminate].
  destruct (sel =? 0); simpl; [discriminate|].
  destruct (findSegment sel (segments s)) as [seg|] eqn:F; [|discriminate].
  apply findSegment_Some in F as [Hin Hid].
  destruct (coordinates (geometry seg)) as [|c rest] eqn:C; [discriminate|].
  intros H. injection H as <-.
  exists seg, c. rewrite C. simpl. repeat split; auto.
  apply Z.eqb_eq. symmetry. exact Hid.
Qed.

Lemma popup_belongs_to_selected_witness :
  exists feature c,
    In feature (segments (view worldSelected)) /\
    isSelected (view worldSelected) feature = true /\
    hd_error (coordinates (geometry feature)) = Some c /\
    (40.7128%Q, (-74.006)%Q) = (snd c, fst c) /\
    tagsA = properties feature.
Proof.
  exact (popup_belongs_to_selected (view worldSelected)
           (mkPopup (40.7128%Q, (-74.006)%Q) tagsA) eq_refl).
Defined.

(** X9: in a reachable state the selection is always found in the list, so
    rendering throws in one case only: the selected id is not 0 and the
    first feature with that id has a line without any point. *)
Theorem popup_throws_iff_empty_line (w : World) :
  reachable w ->
  (popup (view w) = Throws <->
   exists sel segment,
     selectedSegmentId (view w) = Some sel /\
     sel <> 0 /\
     findSegment sel (segments (view w)) = Some segment /\
     coordinates (geometry segment) = []).
Proof.
  intros Hr. pose proof (inv_selected w (reachable_Inv w Hr)) as Hs.
  unfold popup. split.
  - destruct (selectedSegmentId (view w)) as [sel|] eqn:S; simpl;
      [|discriminate].
    destruct (Z.eqb_spec sel 0) as [|Hnz]; simpl; [discriminate|].
    pose proof (rendered_has_segment sel (view w) (Hs sel eq_refl)) as Hf.
    destruct (findSegment sel (segments (view w))) as [seg|] eqn:F;
      [|congruence].
    destruct (coordinates (geometry seg)) as [|c rest] eqn:C; [|discriminate].
    intros _. exists sel, seg. repeat split; auto.
  - intros (sel & seg & S & Hnz & F & C). rewrite S. simpl.
    destruct (Z.eqb_spec sel 0) as [|_]; [contradiction|]. simpl.
    rewrite F, C. reflexivity.
Qed.

Lemma worldEmptyLine_reachable : reachable worldEmptyLine.
Proof.
  apply (run_reachable
           [ClickSearch;
            Settle (Resolved (mkResponseData (Some [elementEmptyLine])));
            ClickFeature 5] initialWorld);
    [apply reachable_init | reflexivity].
Qed.

Lemma popup_throws_iff_empty_line_witness :
  reachable worldEmptyLine /\
  popup (view worldEmptyLine) = Throws /\
  exists sel segment,
    selectedSegmentId (view worldEmptyLine) = Some sel /\
    sel <> 0 /\
    findSegment sel (segments (view worldEmptyLine)) = Some segment /\
    coordinates (geometry segment) = [].
Proof.
  split; [exact worldEmptyLine_reachable|]. split; [reflexivity|].
  apply (proj1 (popup_throws_iff_empty_line worldEmptyLine
                  worldEmptyLine_reachable)).
  reflexivity.
Defined.

(** X10: when several features carry the selected id, all of them are
    styled as selected, and the popup is that of the first one in the list,
    whatever follows it. *)
Theorem popup_of_first_duplicate (s : ViewState) (sel : Z)
        (l1 l2 : list Feature) (f : Feature) (c : Q * Q) (rest : list (Q * Q)) :
  segments s = (l1 ++ f :: l2)%list ->
  (forall g, In g l1 -> id g <> sel) ->
  id f = sel ->
  sel <> 0 ->
  selectedSegmentId s = Some sel ->
  coordinates (geometry f) = c :: rest ->
  popup s = Rendered (mkPopup (snd c, fst c) (properties f)) /\
  (forall g, In g (segments s) -> id g = sel -> isSelected s g = true).
Proof.
  intros Hseg Hl1 Hf Hnz Hsel Hc. split.
  - apply (popup_for_nonzero_id s sel f c rest); auto.
    rewrite Hseg. apply findSegment_first; assumption.
  - intros g _ Hg. unfold isSelected. rewrite Hsel. simpl.
    apply Z.eqb_eq. symmetry. exact Hg.
Qed.

Lemma popup_of_first_duplicate_witness :
  popup (mkViewState [featureB; featureA; featureA'] (Some 5) false EmptyString) =
  Rendered (mkPopup (40.7128%Q, (-74.006)%Q) tagsA) /\
  isSelected (mkViewState [featureB; featureA; featureA'] (Some 5) false EmptyString)
             featureA' = true.
Proof.
  destruct (popup_of_first_duplicate
              (mkViewState [featureB; featureA; featureA'] (Some 5) false EmptyString)
              5 [featureB] [featureA'] featureA
              ((-74.006)%Q, 40.7128%Q) [((-74.005)%Q, 40.7130%Q)])
    as [H1 H2]; try reflexivity; try discriminate.
  - intros g [<- | []]. discriminate.
  - split; [exact H1|].
    apply H2; [right; right; left; reflexivity | reflexivity].
Defined.

Lemma NoDup_ids_eq (l : list Feature) (f g : Feature) :
  NoDup (map id l) -> In f l -> In g l -> id f = id g -> f = g.
Proof.
  induction l as [|h rest IH]; intros Hnd Hf Hg E; [destruct Hf|].
  simpl in Hnd. inversion Hnd as [|x xs Hnotin Hnd' Heq]; subst.
  destruct Hf as [<- | Hf], Hg as [<- | Hg]; auto.
  - exfalso. apply Hnotin. rewrite E. apply in_map. exact Hg.
  - exfalso. apply Hnotin. rewrite <- E. apply in_map. exact Hf.
Qed.

(** X11: when the ids of the displayed features are pairwise distinct, at
    most one feature is styled as selected. *)
Theorem unique_ids_unique_highlight (s : ViewState) (f g : Feature) :
  NoDup (map id (segments s)) ->
  In f (segments s) -> In g (segments s) ->
  isSelected s f = true -> isSelected s g = true ->
  f = g.
Proof.
  intros Hnd Hf Hg Sf Sg. apply (NoDup_ids_eq (segments s)); auto.
  unfold isSelected, strictEq in Sf, Sg.
  destruct (selectedSegmentId s) as [x|]; [|discriminate].
  apply Z.eqb_eq in Sf, Sg. congruence.
Qed.

Lemma unique_ids_unique_highlight_witness :
  NoDup (map id (segments (view worldSelected))) /\
  isSelected (view worldSelected) featureA = true /\
  isSelected (view worldSelected) featureB = false /\
  featureA = featureA.
Proof.
  assert (Hnd : NoDup (map id (segments (view worldSelected)))).
  { simpl. repeat constructor; simpl; intuition discriminate. }
  split; [exact Hnd|]. split; [reflexivity|]. split; [reflexivity|].
  apply (unique_ids_unique_highlight (view worldSelected) featureA featureA Hnd);
    try reflexivity; left; reflexivity.
Defined.

(** ** Clicks on features *)

(** X12: on a reachable page a click on a rendered feature always selects
    it, also when it is the selected one: the handlers of the layer were
    created when nothing was selected, so their deselecting branch is never
    taken.  A selection is given up only by closing the popup or by "Clear
    Segments". *)
Theorem click_always_selects (w : World) :
  reachable w ->
  (forall fid,
      enabled w (ClickFeature fid) = true ->
      view (fire w (ClickFeature fid)) =
      mkViewState (segments (view w)) (Some fid)
                  (loading (view w)) (errorMessage (view w)) /\
      enabled (fire w (ClickFeature fid)) (ClickFeature fid) = true) /\
  (forall e,
      enabled w e = true ->
      selectedSegmentId (view w) <> None ->
      selectedSegmentId (view (fire w e)) = None ->
      e = ClickClear \/ e = ClosePopup).
Proof.
  intros Hr. pose proof (reachable_Inv w Hr) as HI. split.
  - intros fid En.
    destruct (enabled_ClickFeature w fid HI En) as [_ R].
    rewrite (fire_ClickFeature w fid HI En).
    split; [reflexivity | exact R].
  - intros e En Hsel Hnone. destruct e as [|o| |fid| |]; auto; exfalso.
    + apply Hsel. exact Hnone.
    + apply Hsel. unfold fire in Hnone. cbn [view rendered] in Hnone.
      destruct (tryBlock o) as [fs|code] eqn:T.
      * rewrite (searchFinish_success o fs _ T) in Hnone. exact Hnone.
      * rewrite (searchFinish_failure o code _ T) in Hnone. exact Hnone.
    + rewrite (fire_ClickFeature w fid HI En) in Hnone. discriminate Hnone.
    + apply Hsel. exact Hnone.
Qed.

Lemma click_always_selects_witness :
  reachable worldSelected /\
  selectedSegmentId (view worldSelected) = Some 5 /\
  enabled worldSelected (ClickFeature 5) = true /\
  view (fire worldSelected (ClickFeature 5)) =
  mkViewState [featureA; featureB] (Some 5) false EmptyString.
Proof.
  split; [exact worldSelected_reachable|].
  split; [reflexivity|]. split; [reflexivity|].
  exact (proj1 (proj1 (click_always_selects worldSelected
                         worldSelected_reachable) 5 eq_refl)).
Defined.

(** X13: three clicks on a feature do what one click does, whatever was
    selected before and whatever selection the handler was created
    with. *)
Theorem click_thrice_is_click (captured : option Z) (s : ViewState) (x : Z) :
  clickFeature captured x
    (clickFeature captured x (clickFeature captured x s)) =
  clickFeature captured x s.
Proof. rewrite !clickFeature_selection. reflexivity. Qed.

(** X14: a click on a feature followed by a click on another one always
    leaves the second one selected, and nothing but the selection changes:
    for a handler that was not created with the second one selected, and so
    on every reachable page. *)
Theorem click_other_takes_over (x y : Z) :
  x <> y ->
  (forall (captured : option Z) (s : ViewState),
      captured <> Some y ->
      clickFeature captured y (clickFeature captured x s) =
      mkViewState (segments s) (Some y) (loading s) (errorMessage s)) /\
  (forall w : World,
      reachable w ->
      enabled w (ClickFeature x) = true ->
      enabled w (ClickFeature y) = true ->
      enabled (fire w (ClickFeature x)) (ClickFeature y) = true /\
      view (fire (fire w (ClickFeature x)) (ClickFeature y)) =
      mkViewState (segments (view w)) (Some y)
                  (loading (view w)) (errorMessage (view w))).
Proof.
  intros _. split.
  - intros captured s Hc. rewrite !clickFeature_selection.
    cbn [segments loading errorMessage].
    destruct captured as [c|]; simpl; [|reflexivity].
    destruct (Z.eqb_spec c y) as [E|_]; [congruence | reflexivity].
  - intros w Hr Ex Ey. pose proof (reachable_Inv w Hr) as HI.
    assert (Hr1 : reachable (fire w (ClickFeature x)))
      by (apply reachable_step; assumption).
    destruct (enabled_ClickFeature w y HI Ey) as [_ Ry].
    rewrite (fire_ClickFeature w x HI Ex) in *.
    assert (Ey1 : enabled
                    (mkWorld (setSelectedSegmentId (Some x) (view w))
                             (inflight w) (Some None))
                    (ClickFeature y) = true) by exact Ry.
    split; [exact Ey1|].
    rewrite (fire_ClickFeature _ y (reachable_Inv _ Hr1) Ey1). reflexivity.
Qed.

Lemma click_other_takes_over_witness :
  enabled worldSelected (ClickFeature 5) = true /\
  enabled worldSelected (ClickFeature 9) = true /\
  view (fire (fire worldSelected (ClickFeature 5)) (ClickFeature 9)) =
  mkViewState [featureA; featureB] (Some 9) false EmptyString /\
  clickFeature None 9 (clickFeature None 5 (view worldSelected)) =
  mkViewState [featureA; featureB] (Some 9) false EmptyString.
Proof.
  assert (H : (5 <> 9)%Z) by discriminate.
  destruct (click_other_takes_over 5 9 H) as [Hf Hw].
  split; [reflexivity|]. split; [reflexivity|]. split.
  - exact (proj2 (Hw worldSelected worldSelected_reachable eq_refl eq_refl)).
  - apply (Hf None (view worldSelected)). discriminate.
Defined.

(** ** Responses *)

Lemma mapElements_missing_geometry (els : list RawElement) (el : RawElement) :
  In el els -> el_geometry el = None -> mapElements els = None.
Proof.
  induction els as [|e rest IH]; intros Hin Hg; [destruct Hin|].
  simpl. destruct Hin as [-> | Hin].
  - unfold mapElement. rewrite Hg. reflexivity.
  - rewrite (IH Hin Hg). destruct (mapElement e); reflexivity.
Qed.

(** X15: one element without geometry spoils the whole response: no
    feature of it is displayed, the features are left as they were and the
    generic error message is shown. *)
Theorem missing_geometry_rejects_response
        (els : list RawElement) (el : RawElement) (s : ViewState) :
  In el els ->
  el_geometry el = None ->
  searchSegments (Resolved (mkResponseData (Some els))) s =
  mkViewState (segments s) (selectedSegmentId s) false
              "An error occurred while fetching the data.".
Proof.
  intros Hin Hg. unfold searchSegments.
  rewrite (searchFinish_failure _ typeError).
  - reflexivity.
  - simpl. rewrite (mapElements_missing_geometry els el Hin Hg). reflexivity.
Qed.

Lemma missing_geometry_rejects_response_witness :
  searchSegments
    (Resolved (mkResponseData (Some [elementA; elementNoGeometry; elementB])))
    initialState =
  mkViewState [] None false "An error occurred while fetching the data.".
Proof.
  apply (missing_geometry_rejects_response
           [elementA; elementNoGeometry; elementB] elementNoGeometry
           initialState).
  - right. left. reflexivity.
  - reflexivity.
Defined.

Lemma mapPoints_injective (pts1 pts2 : list Point) :
  map mapPoint pts1 = map mapPoint pts2 -> pts1 = pts2.
Proof.
  revert pts2. induction pts1 as [|[x1 y1] r1 IH]; intros [|[x2 y2] r2] H;
    try discriminate; [reflexivity|].
  simpl in H. injection H as Hx Hy Hr. subst. f_equal. apply IH. exact Hr.
Qed.

Lemma mapElement_injective (e1 e2 : RawElement) (f : Feature) :
  mapElement e1 = Some f -> mapElement e2 = Some f -> e1 = e2.
Proof.
  unfold mapElement.
  destruct e1 as [i1 [g1|] t1], e2 as [i2 [g2|] t2]; simpl;
    try discriminate.
  intros H1 H2. rewrite <- H2 in H1. injection H1 as Hpts Ht Hi.
  apply mapPoints_injective in Hpts. subst. reflexivity.
Qed.

(** X16: the mapping loses nothing of what it reads: two lists of elements
    that give the same features have the same ids, points and tags. *)
Theorem mapElements_injective (els1 els2 : list RawElement)
        (fs : list Feature) :
  mapElements els1 = Some fs -> mapElements els2 = Some fs -> els1 = els2.
Proof.
  revert els2 fs.
  induction els1 as [|e1 r1 IH]; intros [|e2 r2] fs H1 H2; simpl in H1, H2.
  - reflexivity.
  - injection H1 as <-.
    destruct (mapElement e2); [|discriminate].
    destruct (mapElements r2); discriminate.
  - injection H2 as <-.
    destruct (mapElement e1); [|discriminate].
    destruct (mapElements r1); discriminate.
  - destruct (mapElement e1) as [f1|] eqn:M1; [|discriminate].
    destruct (mapElements r1) as [fs1|] eqn:R1; [|discriminate].
    destruct (mapElement e2) as [f2|] eqn:M2; [|discriminate].
    destruct (mapElements r2) as [fs2|] eqn:R2; [|discriminate].
    injection H1 as <-. injection H2 as Hf Hfs. subst.
    f_equal.
    + apply (mapElement_injective e1 e2 f1); assumption.
    + apply (IH r2 fs1); [reflexivity | assumption].
Qed.

Lemma mapElements_injective_witness :
  [elementA; elementB] = [elementA; elementB].
Proof.
  apply (mapElements_injective [elementA; elementB] [elementA; elementB]
           [featureA; featureB]); reflexivity.
Defined.

(** ** Wrapping and the order of west and east *)

(** X17: for a view that straddles the antimeridian (west below -180, east
    not, less than a full turn wide) only west is wrapped, so the query
    carries a west that is greater than its east. *)
Theorem wrap_inverts_straddling_view (b : BoundingBox) :
  (west b < -180)%Q ->
  (-180 <= east b)%Q ->
  (east b < west b + 360)%Q ->
  (wrapLongitude (east b) < wrapLongitude (west b))%Q.
Proof.
  intros Hw He Hspan.
  rewrite (wrapLongitude_below _ Hw), (wrapLongitude_above _ He).
  exact Hspan.
Qed.

Lemma wrap_inverts_straddling_view_witness :
  wrapLongitude (west boundsStraddling) = 170%Q /\
  wrapLongitude (east boundsStraddling) = (-170)%Q /\
  (wrapLongitude (east boundsStraddling) <
   wrapLongitude (west boundsStraddling))%Q.
Proof.
  split; [reflexivity|]. split; [reflexivity|].
  apply (wrap_inverts_straddling_view boundsStraddling);
    vm_compute; first [reflexivity | discriminate].
Defined.

(** X18: when west and east lie on the same side of -180, wrapping keeps
    their order and the width of the view. *)
Theorem wrap_keeps_order_on_one_side (x y : Q) :
  (x <= y)%Q ->
  (y < -180)%Q \/ (-180 <= x)%Q ->
  (wrapLongitude x <= wrapLongitude y)%Q /\
  (wrapLongitude y - wrapLongitude x == y - x)%Q.
Proof.
  intros Hxy [Hy | Hx].
  - assert (Hx : (x < -180)%Q) by lra.
    rewrite (wrapLongitude_below _ Hx), (wrapLongitude_below _ Hy).
    split; [lra | ring].
  - assert (Hy : (-180 <= y)%Q) by lra.
    rewrite (wrapLongitude_above _ Hx), (wrapLongitude_above _ Hy).
    split; [lra | ring].
Qed.

Lemma wrap_keeps_order_on_one_side_witness :
  (wrapLongitude (-190) <= wrapLongitude (-185))%Q /\
  (wrapLongitude (-185) - wrapLongitude (-190) == -185 - -190)%Q.
Proof.
  apply (wrap_keeps_order_on_one_side (-190) (-185)).
  - discriminate.
  - left. reflexivity.
Defined.

(** X19: a view that lies one turn to the west of the canonical range
    gives the very query of the same view taken one turn to the east. *)
Theorem same_query_one_turn_apart (numberToString : Q -> string)
        (b : BoundingBox) :
  (west b < -180)%Q -> (east b < -180)%Q ->
  (-540 <= west b)%Q -> (-540 <= east b)%Q ->
  buildQuery numberToString b =
  buildQuery numberToString
    (mkBoundingBox (south b) (west b + 360) (north b) (east b + 360)).
Proof.
  intros Hw He Hw' He'. unfold buildQuery. simpl.
  rewrite (wrapLongitude_below _ Hw), (wrapLongitude_below _ He).
  rewrite (wrapLongitude_above (west b + 360)) by lra.
  rewrite (wrapLongitude_above (east b + 360)) by lra.
  reflexivity.
Qed.

Lemma same_query_one_turn_apart_witness :
  buildQuery (fun _ => "n") (mkBoundingBox 40 (-190) 41 (-189)) =
  buildQuery (fun _ => "n")
    (mkBoundingBox 40 (-190 + 360) 41 (-189 + 360)).
Proof.
  apply (same_query_one_turn_apart (fun _ => "n")
           (mkBoundingBox 40 (-190) 41 (-189)));
    simpl; first [reflexivity | discriminate].
Defined.

(** ** Getting back to the start *)

(** X20: from every reachable state whose rendering does not throw, the
    initial page is at most one event away: nothing to do, the close button
    of the banner, "Clear Segments", or the settling of the pending request
    with an empty result. *)
Theorem initial_one_event_away (w : World) :
  reachable w ->
  rendersWithoutThrowing (view w) = true ->
  exists es, (List.length es <= 1)%nat /\ run w es = Some initialWorld.
Proof.
  intros Hr _. pose proof (reachable_Inv w Hr) as HI.
  destruct w as [[segs sel ld err] n ly].
  destruct HI as [Hi Hl Hs He Hy]. simpl in Hi, Hl, Hs, He, Hy.
  destruct ld.
  - destruct (Hl eq_refl) as [-> ->]. subst n ly.
    assert (sel = None) as ->.
    { destruct sel as [x|]; [|reflexivity].
      specialize (Hs x eq_refl). discriminate. }
    exists [Settle (Resolved (mkResponseData (Some [])))].
    split; [simpl; lia | reflexivity].
  - subst n. destruct segs as [|f rest]; subst ly.
    + assert (sel = None) as ->.
      { destruct sel as [x|]; [|reflexivity].
        specialize (Hs x eq_refl). discriminate. }
      destruct err as [|a err'].
      * exists []. split; [simpl; lia | reflexivity].
      * exists [ClickCloseError]. split; [simpl; lia | reflexivity].
    + exists [ClickClear]. split; [simpl; lia | reflexivity].
Qed.

Lemma initial_one_event_away_witness :
  reachable worldSelected /\
  rendersWithoutThrowing (view worldSelected) = true /\
  exists es, (List.length es <= 1)%nat /\ run worldSelected es = Some initialWorld.
Proof.
  split; [exact worldSelected_reachable|]. split; [reflexivity|].
  exact (initial_one_event_away worldSelected worldSelected_reachable eq_refl).
Defined.

(** ** The reachable pages *)

Lemma tryBlock_success (o : Outcome) (fs : list Feature) :
  tryBlock o = inl fs -> exists els, mapElements els = Some fs.
Proof.
  destruct o as [[[els|]]|code]; simpl; try discriminate.
  destruct (mapElements els) as [fs'|] eqn:M; [|discriminate].
  intros H. injection H as <-. exists els. exact M.
Qed.

Lemma Shape_step (w : World) (e : Event) :
  Shape w -> enabled w e = true -> Shape (fire w e).
Proof.
  intros [msg Hmsg | | els fs sel Hmap Hne Hsel] En.
  - destruct e as [|o| |fid| |]; simpl in En; try discriminate.
    + apply shape_loading.
    + apply shape_idle. left. reflexivity.
  - destruct e as [|o| |fid| |]; simpl in En; try discriminate.
    unfold fire. cbn [view inflight pred].
    destruct (tryBlock o) as [fs|code] eqn:T.
    + rewrite (searchFinish_success o fs _ T).
      cbn [selectedSegmentId errorMessage].
      destruct fs as [|f rest] eqn:F.
      * apply shape_idle. left. reflexivity.
      * destruct (tryBlock_success o _ T) as [els Hels].
        apply (shape_results els); [exact Hels | discriminate | left; reflexivity].
    + rewrite (searchFinish_failure o code _ T).
      cbn [segments selectedSegmentId errorMessage].
      apply shape_idle. destruct (isTimeout code); auto.
  - destruct fs as [|f0 rest]; [congruence|].
    destruct e as [|o| |fid| |]; simpl in En; try discriminate.
    + apply shape_idle. left. reflexivity.
    + apply rendersFeature_In in En as (f & Hin & Hid). simpl in Hin.
      unfold fire. cbn [layer view inflight].
      rewrite clickFeature_selection. cbn [strictEq segments loading errorMessage].
      apply (shape_results els); auto.
      right. exists f. subst fid. auto.
    + apply (shape_results els); auto.
Qed.

Lemma reachable_Shape (w : World) : reachable w -> Shape w.
Proof.
  induction 1 as [|w e _ IH En].
  - apply shape_idle. left. reflexivity.
  - apply Shape_step; assumption.
Qed.

Lemma Shape_reachable (w : World) : Shape w -> reachable w.
Proof.
  intros [msg Hmsg | | els fs sel Hmap Hne Hsel].
  - destruct Hmsg as [-> | [-> | ->]].
    + apply reachable_init.
    + apply (run_reachable
               [ClickSearch; Settle (Rejected (Some "ECONNABORTED"))]
               initialWorld); [apply reachable_init | reflexivity].
    + apply (run_reachable [ClickSearch; Settle (Rejected None)]
               initialWorld); [apply reachable_init | reflexivity].
  - apply (run_reachable [ClickSearch] initialWorld);
      [apply reachable_init | reflexivity].
  - assert (T : tryBlock (Resolved (mkResponseData (Some els))) = inl fs).
    { simpl. rewrite Hmap. reflexivity. }
    destruct fs as [|f0 rest]; [congruence|].
    assert (R : reachable
                  (mkWorld (mkViewState (f0 :: rest) None false EmptyString)
                           0 (Some None))).
    { assert (E : fire (fire initialWorld ClickSearch)
                       (Settle (Resolved (mkResponseData (Some els)))) =
                  mkWorld (mkViewState (f0 :: rest) None false EmptyString)
                          0 (Some None)).
      { unfold fire. cbn [view inflight layer rendered].
        rewrite (searchFinish_success _ (f0 :: rest) _ T). reflexivity. }
      rewrite <- E. apply reachable_step; [|reflexivity].
      apply reachable_step; [apply reachable_init | reflexivity]. }
    destruct Hsel as [-> | (f & Hin & ->)]; [exact R|].
    assert (En : enabled
                   (mkWorld (mkViewState (f0 :: rest) None false EmptyString)
                            0 (Some None))
                   (ClickFeature (id f)) = true).
    { apply rendersFeature_In. exists f. auto. }
    pose proof (reachable_step _ (ClickFeature (id f)) R En) as H.
    rewrite (fire_ClickFeature _ _ (reachable_Inv _ R) En) in H.
    exact H.
Qed.

(** X21: the reachable pages are exactly these: the idle page over an
    empty map with no message or one of the two messages; the loading page
    with one request pending; a page that displays the non-empty feature
    list of one response, with nothing selected or one of its ids
    selected, no message and no request pending. *)
Theorem reachable_iff_shape (w : World) : reachable w <-> Shape w.
Proof. split; [apply reachable_Shape | apply Shape_reachable]. Qed.

Lemma reachable_iff_shape_witness :
  reachable worldSelected /\ Shape worldSelected.
Proof.
  split; [exact worldSelected_reachable|].
  apply (proj1 (reachable_iff_shape worldSelected)).
  exact worldSelected_reachable.
Defined.

(** X22: every search starts from the same page: whenever "Search This
    Area" can be clicked, the click leads to the page that the first search
    of a session leads to. *)
Theorem search_starts_from_scratch (w : World) :
  reachable w ->
  enabled w ClickSearch = true ->
  fire w ClickSearch = fire initialWorld ClickSearch.
Proof.
  intros Hr En.
  destruct (reachable_Shape w Hr) as [msg _ | | els fs sel _ Hne _].
  - reflexivity.
  - discriminate En.
  - simpl in En. destruct fs; [congruence | discriminate].
Qed.

Lemma search_starts_from_scratch_witness :
  reachable worldTimedOut /\
  enabled worldTimedOut ClickSearch = true /\
  fire worldTimedOut ClickSearch = fire initialWorld ClickSearch.
Proof.
  split; [exact worldTimedOut_reachable|]. split; [reflexivity|].
  apply (search_starts_from_scratch _ worldTimedOut_reachable). reflexivity.
Defined.

Lemma mapElements_wellformed (els : list RawElement) :
  forall fs f,
    mapElements els = Some fs -> In f fs ->
    ftype f = "Feature" /\ gtype (geometry f) = "LineString".
Proof.
  induction els as [|e rest IH]; simpl; intros fs f H Hin.
  - injection H as <-. destruct Hin.
  - unfold mapElement in H.
    destruct (el_geometry e) as [pts|]; [|discriminate].
    destruct (mapElements rest) as [fs'|]; [|discriminate].
    injection H as <-. destruct Hin as [<- | Hin].
    + split; reflexivity.
    + apply (IH fs'); [reflexivity | exact Hin].
Qed.

(** X23: whatever is displayed is a GeoJSON line: every feature of a
    reachable state has type Feature and a geometry of type LineString. *)
Theorem displayed_features_are_lines (w : World) (f : Feature) :
  reachable w ->
  In f (segments (view w)) ->
  ftype f = "Feature" /\ gtype (geometry f) = "LineString".
Proof.
  intros Hr Hin.
  destruct (reachable_Shape w Hr) as [msg _ | | els fs sel Hmap _ _];
    simpl in Hin; try contradiction.
  apply (mapElements_wellformed els fs); assumption.
Qed.

Lemma displayed_features_are_lines_witness :
  reachable worldSelected /\
  In featureB (segments (view worldSelected)) /\
  ftype featureB = "Feature" /\ gtype (geometry featureB) = "LineString".
Proof.
  split; [exact worldSelected_reachable|].
  assert (Hin : In featureB (segments (view worldSelected))).
  { right. left. reflexivity. }
  split; [exact Hin|].
  exact (displayed_features_are_lines worldSelected featureB
           worldSelected_reachable Hin).
Defined.
